(** * useTextareaIsMultiline: the height-based multiline detector

    A shallow embedding of the React hook [useTextareaIsMultiline]
    (threshold = 4, releaseThreshold = 12 by default) and of the browser
    facilities it drives (setTimeout / clearTimeout,
    requestAnimationFrame / cancelAnimationFrame).

    - [measure_closure] is the calibration and hysteresis step as the
      closure an effect instance creates: it tests the [isMultiline] that
      instance captured and writes the ref and the state cell; [measure]
      is the call of a closure that holds the current value.
    - [clearPendingTimers], [debouncedMeasure], [measureAfterFrame],
      [handleInput], [handlePaste] and the effect's mount and cleanup act
      on the hook's refs and on an explicit table of the host's pending
      timers and frame requests; [step] and [exec] run traces of events.

    Heights are the integer DOM attributes [scrollHeight] and
    [clientHeight]; the two thresholds are taken as integers as well. *)

From stdpp Require Import gmap strings list.

(** ** Data model *)

(** What [measure] reads from the bound textarea at one instant. *)
Record element := Element {
  value : string;
  scrollHeight : Z;
  clientHeight : Z
}.

(** [baseHeightRef.current] and the React state cell [isMultiline], which
    [setIsMultiline] writes. The value a [measure] closure tests is not
    this cell but the constant its effect instance captured; it is an
    argument of [measure_closure]. *)
Record detector := Detector {
  baseHeightRef : option Z;
  isMultiline : bool
}.

(** [useRef(null)] and [useState(false)]. *)
Definition initial : detector :=
  {| baseHeightRef := None; isMultiline := false |}.

(** JavaScript's [!s] on a string: only the empty string is falsy. *)
Definition not_ (s : string) : bool :=
  match s with
  | EmptyString => true
  | String _ _ => false
  end.

(** ** The measurement step *)

Section Measure.
Local Open Scope Z_scope.

Variables threshold releaseThreshold : Z.

(** Lines 37-47 of the hook: the baseline [measure] works with, which is
    the stored one or, when none is stored, the freshly captured one. *)
Definition calibrate (el : element) (base : option Z) : Z :=
  match base with
  | Some b => b
  | None =>
      if decide (scrollHeight el > clientHeight el + threshold)
      then clientHeight el
      else scrollHeight el
  end.

(** The source's [measure], as created by an effect instance whose
    render saw [isMultiline = captured] (l.15, l.123): the tests of l.27,
    l.55 and l.57 read that constant, [setIsMultiline] writes the state
    cell of [st]. The guard [if (!el) return] tests the constant the
    effect has already tested (see [mount]), so it never fires here. *)
Definition measure_closure (captured : bool) (el : element) (st : detector)
  : detector :=
  if not_ (value el) then
    {| baseHeightRef := None;
       isMultiline := if captured then false else isMultiline st |}
  else
    let baseHeight := calibrate el (baseHeightRef st) in
    let overflowHeight := scrollHeight el - baseHeight in
    let shouldBeMultiline := bool_decide (overflowHeight > threshold) in
    let shouldBeSingleLine :=
      bool_decide (overflowHeight < - releaseThreshold) in
    if shouldBeMultiline && negb captured then
      {| baseHeightRef := Some baseHeight; isMultiline := true |}
    else if shouldBeSingleLine && captured then
      {| baseHeightRef := Some (scrollHeight el); isMultiline := false |}
    else
      {| baseHeightRef := Some baseHeight; isMultiline := isMultiline st |}.

(** A [measure] call by a closure that holds the current value of the
    state cell: the call an effect instance makes when it runs (l.112),
    and the call of a timer that fires before the state has changed under
    it. *)
Definition measure (el : element) (st : detector) : detector :=
  measure_closure (isMultiline st) el st.

(** Successive [measure] calls of that kind, one per reading of the
    element. *)
Definition measures (els : list element) (st : detector) : detector :=
  foldl (fun s el => measure el s) st els.

End Measure.

(** [isMultiline] is set only while a baseline is stored. *)
Definition calibrated_when_multiline (st : detector) : Prop :=
  isMultiline st = true -> baseHeightRef st <> None.

(** ** Scheduling *)

(** The two closures the hook hands to [setTimeout]. *)
Inductive callback :=
| measureCb      (* setTimeout(measure, 16) *)
| afterFrameCb.  (* setTimeout(() => { measure(); rafRef.current = null; }, 0) *)

#[global] Instance callback_eq_dec : EqDecision callback.
Proof. solve_decision. Defined.

(** The hook's refs and state together with the host's pending tasks.
    [timers] maps the handle of every timer that has neither fired nor
    been cleared to its callback and to the [isMultiline] the [measure]
    closure of that callback captured; [animationFrames] maps the handle
    of every animation frame request in the same situation to the
    [isMultiline] captured by the [measure] its callback will hand on
    (the callback itself is always the arrow function of
    [measureAfterFrame]); [nextTimeout] and [nextFrame] are the host's
    handle counters. *)
Record hook := Hook {
  det : detector;
  debounceTimerRef : option nat;
  rafRef : option nat;
  timers : gmap nat (callback * bool);
  animationFrames : gmap nat bool;
  nextTimeout : nat;
  nextFrame : nat
}.

(** The pending timers by callback, and the pending frame requests. *)
Definition timeouts (h : hook) : gmap nat callback := fst <$> timers h.

Definition frames (h : hook) : gset nat := dom (animationFrames h).

Definition set_det (f : detector -> detector) (h : hook) : hook :=
  Hook (f (det h)) (debounceTimerRef h) (rafRef h) (timers h)
       (animationFrames h) (nextTimeout h) (nextFrame h).

Definition set_debounceTimerRef (r : option nat) (h : hook) : hook :=
  Hook (det h) r (rafRef h) (timers h) (animationFrames h)
       (nextTimeout h) (nextFrame h).

Definition set_rafRef (r : option nat) (h : hook) : hook :=
  Hook (det h) (debounceTimerRef h) r (timers h) (animationFrames h)
       (nextTimeout h) (nextFrame h).

(** *** The host's timer interface *)

(** [captured] is the [isMultiline] of the closure handed over. *)
Definition setTimeout (cb : callback) (captured : bool) (h : hook)
  : nat * hook :=
  (nextTimeout h,
   Hook (det h) (debounceTimerRef h) (rafRef h)
        (<[nextTimeout h := (cb, captured)]> (timers h)) (animationFrames h)
        (S (nextTimeout h)) (nextFrame h)).

(** Clearing a handle that has fired or was cleared before does nothing. *)
Definition clearTimeout (id : nat) (h : hook) : hook :=
  Hook (det h) (debounceTimerRef h) (rafRef h)
       (delete id (timers h)) (animationFrames h)
       (nextTimeout h) (nextFrame h).

Definition requestAnimationFrame (captured : bool) (h : hook) : nat * hook :=
  (nextFrame h,
   Hook (det h) (debounceTimerRef h) (rafRef h)
        (timers h) (<[nextFrame h := captured]> (animationFrames h))
        (nextTimeout h) (S (nextFrame h))).

Definition cancelAnimationFrame (id : nat) (h : hook) : hook :=
  Hook (det h) (debounceTimerRef h) (rafRef h)
       (timers h) (delete id (animationFrames h))
       (nextTimeout h) (nextFrame h).

Definition init_hook : hook :=
  Hook initial None None ∅ ∅ 0 0.

(** *** The hook's closures *)

Definition clearPendingTimers (h : hook) : hook :=
  let h1 :=
    match debounceTimerRef h with
    | Some id => set_debounceTimerRef None (clearTimeout id h)
    | None => h
    end in
  match rafRef h1 with
  | Some id => set_rafRef None (cancelAnimationFrame id h1)
  | None => h1
  end.

(** The listeners that run are taken to be those of the latest effect
    instance: React re-creates the effect, and the listeners with it, on
    every change of [isMultiline] (l.123), and the model assumes it has
    done so before the next event is handled. The [measure] a listener
    hands to the host therefore captured the current [isMultiline]; the
    timer or frame request keeps that closure until it fires, whatever
    happens to the state and to the effect in between. *)
Definition debouncedMeasure (h : hook) : hook :=
  let h1 :=
    match debounceTimerRef h with
    | Some id => clearTimeout id h
    | None => h
    end in
  let '(id, h2) := setTimeout measureCb (isMultiline (det h)) h1 in
  set_debounceTimerRef (Some id) h2.

Definition measureAfterFrame (h : hook) : hook :=
  let h1 :=
    match rafRef h with
    | Some id => cancelAnimationFrame id h
    | None => h
    end in
  let '(id, h2) := requestAnimationFrame (isMultiline (det h)) h1 in
  set_rafRef (Some id) h2.

(** [inputType] is [None] when the event carries none. *)
Definition handleInput (inputType : option string) (h : hook) : hook :=
  if decide (inputType = Some "insertFromPaste") then
    measureAfterFrame (clearPendingTimers h)
  else
    debouncedMeasure h.

Definition handlePaste (h : hook) : hook :=
  measureAfterFrame (clearPendingTimers h).

(** *** Runs of the hook *)

Section Run.
Variables threshold releaseThreshold : Z.

(** The body of the layout effect up to the listeners: [ref.current] may
    be null, and then nothing happens. The instance that runs captured
    the current [isMultiline], so its own call is [measure]. *)
Definition mount (current : option element) (h : hook) : hook :=
  match current with
  | None => h
  | Some el => set_det (measure threshold releaseThreshold el) h
  end.

(** The effect's cleanup. *)
Definition cleanup (h : hook) : hook := clearPendingTimers h.

(** The host runs the timer [id]; [el] is what the element shows then.
    A handle with no pending timer runs nothing; a timer that runs leaves
    the table of pending ones. The callback runs the [measure] closure it
    was armed with, which tests the [isMultiline] captured then. *)
Definition fire_timeout (id : nat) (el : element) (h : hook) : hook :=
  match timers h !! id with
  | None => h
  | Some (cb, captured) =>
      let h1 := clearTimeout id h in
      let measure_ := measure_closure threshold releaseThreshold captured el in
      match cb with
      | measureCb => set_det measure_ h1
      | afterFrameCb => set_rafRef None (set_det measure_ h1)
      end
  end.

(** The host runs the animation frame callback [id], which only arms the
    zero-delay timer, with the [measure] of the instance that requested
    the frame. *)
Definition fire_frame (id : nat) (h : hook) : hook :=
  match animationFrames h !! id with
  | Some captured =>
      snd (setTimeout afterFrameCb captured (cancelAnimationFrame id h))
  | None => h
  end.

(** What can happen to a mounted hook. A change of [isMultiline] makes
    React run the cleanup and then the effect again, which is a
    [Cleanup] followed by a [Mount]; traces are not restricted to that
    order. *)
Inductive event :=
| Mount (current : option element)
| Cleanup
| InputEvent (inputType : option string)
| PasteEvent
| TimeoutFires (id : nat) (el : element)
| FrameFires (id : nat).

Definition step (h : hook) (ev : event) : hook :=
  match ev with
  | Mount current => mount current h
  | Cleanup => cleanup h
  | InputEvent ty => handleInput ty h
  | PasteEvent => handlePaste h
  | TimeoutFires id el => fire_timeout id el h
  | FrameFires id => fire_frame id h
  end.

Definition exec (tr : list event) (h : hook) : hook := foldl step h tr.

(** The readings [measure] is run on along a trace: one per effect run on
    a bound element and one per timer that fires while pending. *)
Definition measured (h : hook) (ev : event) : list element :=
  match ev with
  | Mount (Some el) => [el]
  | TimeoutFires id el =>
      match timeouts h !! id with
      | Some _ => [el]
      | None => []
      end
  | _ => []
  end.

Fixpoint trace_measured (tr : list event) (h : hook) : list element :=
  match tr with
  | [] => []
  | ev :: tr' => measured h ev ++ trace_measured tr' (step h ev)
  end.

End Run.

(** Scheduled tasks that have neither run nor been cancelled. *)
Definition outstanding (h : hook) : nat := size (timeouts h) + size (frames h).

(** What the refs and the host's tables satisfy along every run. *)
Record sched_inv (h : hook) : Prop := SchedInv {
  inv_timeout_lt : forall id cb, timeouts h !! id = Some cb -> id < nextTimeout h;
  inv_debounce : forall id,
    timeouts h !! id = Some measureCb -> debounceTimerRef h = Some id;
  inv_debounce_lt : forall id,
    debounceTimerRef h = Some id -> id < nextTimeout h;
  inv_debounce_cb : forall id,
    debounceTimerRef h = Some id -> timeouts h !! id <> Some afterFrameCb;
  inv_frame_lt : forall id, id ∈ frames h -> id < nextFrame h;
  inv_raf_lt : forall id, rafRef h = Some id -> id < nextFrame h
}.

(** What an event asks for: an effect run on a bound element measures at
    once, an input or paste event schedules one task; the host's firing
    of a timer or a frame and the cleanup ask for nothing. *)
Definition requests (ev : event) : nat :=
  match ev with
  | Mount (Some _) | InputEvent _ | PasteEvent => 1
  | _ => 0
  end.

(** A burst of input events that do not come from a paste. *)
Definition keystrokes (tys : list (option string)) : list event :=
  InputEvent <$> tys.

(** A run in which a zero-delay timer of the paste path outlives the
    effect instance that armed it. On a one-line field a paste requests a
    frame and a keystroke arms the debounce timer; the frame fires and
    arms the zero-delay timer (handle 1); the debounce timer (handle 0)
    fires on the pasted content and sets [isMultiline], so React runs the
    cleanup, which cannot cancel the zero-delay timer, and the effect
    again; the application empties the field, which raises no event; the
    zero-delay timer fires. *)
Definition surviving_timer_run : list event :=
  [ Mount (Some (Element "a" 20 20));
    PasteEvent;
    InputEvent (Some "insertText");
    FrameFires 0;
    TimeoutFires 0 (Element "pasted text" 50 20);
    Cleanup;
    Mount (Some (Element "pasted text" 50 20));
    TimeoutFires 1 (Element EmptyString 20 20) ].

(** ** Operator icons and the filter row *)

Module Filters.

(** [OperatorType] is declared in [./types], which is not among the
    sources; [ICON_MAP_CONFIG] is a [Record<OperatorType, ...>] literal,
    so its keys are exactly the members of the type. *)
Inductive OperatorType :=
| op_contains | op_equals | op_not_equals | op_starts_with | op_ends_with
| op_greater_than | op_less_than | op_not_contains | op_between.

#[global] Instance OperatorType_eq_dec : EqDecision OperatorType.
Proof. solve_decision. Defined.

(** The string an operator is at run time. *)
Definition operator_key (op : OperatorType) : string :=
  match op with
  | op_contains => "contains"
  | op_equals => "equals"
  | op_not_equals => "not-equals"
  | op_starts_with => "starts-with"
  | op_ends_with => "ends-with"
  | op_greater_than => "greater-than"
  | op_less_than => "less-than"
  | op_not_contains => "not-contains"
  | op_between => "between"
  end.

(** The icon components imported from [assets/icons/operators]. *)
Inductive IconComponent :=
| ContainsIcon | EndsWithIcon | StartsWithIcon | EqualsIcon | NotEqualsIcon
| GreaterThanIcon | LessThanIcon | GreaterThanOrEqualIcon.

#[global] Instance IconComponent_eq_dec : EqDecision IconComponent.
Proof. solve_decision. Defined.

Record IconConfig := { Component : IconComponent; cssVar : string }.

(** The element [<Component color={...} />]. *)
Record ReactElement := { type : IconComponent; color : string }.

(** The entries of [ICON_MAP_CONFIG], in the order of the literal, which
    is the order [Object.entries] lists them in. *)
Definition ICON_MAP_CONFIG : list (string * IconConfig) :=
  [ ("contains", {| Component := ContainsIcon;
                    cssVar := "var(--mui-palette-primary-dark)" |});
    ("equals", {| Component := EqualsIcon;
                  cssVar := "var(--mui-palette-success-main)" |});
    ("not-equals", {| Component := NotEqualsIcon;
                      cssVar := "var(--mui-palette-error-main)" |});
    ("starts-with", {| Component := StartsWithIcon;
                       cssVar := "var(--mui-palette-warning-dark)" |});
    ("ends-with", {| Component := EndsWithIcon;
                     cssVar := "var(--mui-palette-warning-dark)" |});
    ("greater-than", {| Component := GreaterThanIcon;
                        cssVar := "var(--mui-palette-info-main)" |});
    ("less-than", {| Component := LessThanIcon;
                     cssVar := "var(--mui-palette-info-main)" |});
    ("not-contains", {| Component := NotEqualsIcon;
                        cssVar := "var(--mui-palette-error-main)" |});
    ("between", {| Component := GreaterThanOrEqualIcon;
                   cssVar := "var(--mui-palette-info-main)" |}) ].

(** [ICON_MAP_CONFIG[key]]. *)
Definition config_at (key : string) : option IconConfig :=
  (list_to_map ICON_MAP_CONFIG : gmap string IconConfig) !! key.

Definition getOperatorColor (disabled : bool) (cssVar : string) : string :=
  if disabled then "var(--mui-palette-action-active)" else cssVar.

(** The map the [reduce] over the entries builds on every call. *)
Definition iconMap (disabled : bool) : gmap string ReactElement :=
  foldl (fun acc '(key, config) =>
           <[key := {| type := Component config;
                       color := getOperatorColor disabled (cssVar config) |}]>
             acc)
        ∅ ICON_MAP_CONFIG.

(** [getOperatorIcon]. The right operand of [??] is evaluated only when
    the lookup finds nothing; [None] stands for the TypeError that
    reading [defaultConfig.Component] would raise were the default entry
    missing. *)
Definition getOperatorIcon (operatorType : OperatorType) (disabled : bool)
  : option ReactElement :=
  let defaultConfig := config_at "equals" in
  match iconMap disabled !! operator_key operatorType with
  | Some icon => Some icon
  | None =>
      match defaultConfig with
      | Some config =>
          Some {| type := Component config;
                  color := getOperatorColor disabled (cssVar config) |}
      | None => None
      end
  end.

(** What a handler of [FilterInput] returns: normally, or by the
    TypeError of reading a property of [undefined]. *)
Inductive result (A : Type) :=
| Ok (a : A)
| TypeError.
Arguments Ok {A} a.
Arguments TypeError {A}.

(** An entry of a definition's [operators] and an [OperatorOption]: both
    are read through [value] and [label] only. *)
Record OperatorOption := { op_value : OperatorType; op_label : string }.

Section FilterInput.

(** [number] is JavaScript's number type, of which the handlers below use
    the constant 0 only; [date] is what a date range holds; [Rest] and
    [DefRest] stand for the properties of [ActiveFilter] and
    [FilterDefinition] ([./types], not among the sources) that the
    handlers neither read nor write. *)
Context {number date Rest DefRest : Type}.
Variable zero : number.

Inductive FilterValue :=
| VString (s : string)
| VStrings (l : list string)
| VBoolean (b : bool)
| VNumber (n : number)
| VDateRange (from to : option date).

(** [filterId] and [operator] may be [undefined] ([None]);
    [valueLogicOperator] is [undefined] or a string. *)
Record ActiveFilter := {
  filterId : option string;
  operator : option OperatorType;
  value : FilterValue;
  valueLogicOperator : option string;
  enabled : bool;
  rest : Rest
}.

Record FilterDefinition := {
  id : string;
  name : string;
  operators : list OperatorOption;
  valueType : string;
  def_rest : DefRest
}.

(** The calls a handler makes on the callbacks it was given. *)
Inductive call :=
| onFilterTypeChange (oldFilterId newFilterId : string)
| onChange (filter : ActiveFilter).

(** [filter.filterId || ''] *)
Definition filterId_or_empty (filter : ActiveFilter) : string :=
  match filterId filter with
  | Some s => s
  | None => EmptyString
  end.

(** [!filter.filterId] *)
Definition isEmptyFilter (filter : ActiveFilter) : bool :=
  match filterId filter with
  | Some s => not_ s
  | None => true
  end.

(** [filter.filterId ? getFilterDefinition(filter.filterId) : null];
    [getFilterDefinition] belongs to [./filterConfigService], not among
    the sources, and is a parameter. *)
Definition filterDef (getFilterDefinition : string -> option FilterDefinition)
    (filter : ActiveFilter) : option FilterDefinition :=
  match filterId filter with
  | Some s => if not_ s then None else getFilterDefinition s
  | None => None
  end.

Definition isOperatorDisabled (filter : ActiveFilter) (isLinkedEnabled : bool)
  : bool :=
  negb (enabled filter) || negb isLinkedEnabled || isEmptyFilter filter.

(** The [selectedOperator] memo. *)
Definition selectedOperator
    (getFilterDefinition : string -> option FilterDefinition)
    (filter : ActiveFilter) : result (option OperatorOption) :=
  if isEmptyFilter filter then
    Ok (Some {| op_value := op_equals; op_label := "Equals" |})
  else
    match filterDef getFilterDefinition filter with
    | Some fd =>
        let operatorValue :=
          match operator filter with
          | Some o => Ok o
          | None =>
              match operators fd with
              | o :: _ => Ok (op_value o)
              | [] => TypeError
              end
          end in
        match operatorValue with
        | Ok operatorValue =>
            let operatorLabel :=
              match List.find
                      (fun op => bool_decide (op_value op = operatorValue))
                      (operators fd) with
              | Some op => op_label op
              | None => EmptyString
              end in
            Ok (Some {| op_value := operatorValue;
                        op_label := operatorLabel |})
        | TypeError => TypeError
        end
    | None => Ok None
    end.

(** The [renderValue] slot of the operator selector. *)
Definition renderValue (filter : ActiveFilter) (isLinkedEnabled : bool)
    (opt : OperatorOption) : option ReactElement :=
  let iconDisabled := isOperatorDisabled filter isLinkedEnabled in
  getOperatorIcon (op_value opt) iconDisabled.

Definition is_multi (valueType : string) : bool :=
  bool_decide (valueType = "multi-select")
  || bool_decide (valueType = "multi-text").

(** [handleFilterTypeChange]; [hasOnFilterTypeChange] tells whether the
    optional callback was passed. The only property read of a possibly
    undefined value is [defaultOperator.value], in the literal of
    [updatedFilter], before any callback is called. *)
Definition handleFilterTypeChange (hasOnFilterTypeChange : bool)
    (filter : ActiveFilter) (newValue : option FilterDefinition)
  : result (list call) :=
  match newValue with
  | None => Ok []
  | Some newFilterDef =>
      let defaultOperator := head (operators newFilterDef) in
      let defaultValue :=
        if is_multi (valueType newFilterDef) then VStrings []
        else if bool_decide (valueType newFilterDef = "boolean")
             then VBoolean false
        else if bool_decide (valueType newFilterDef = "numeric")
             then VNumber zero
        else if bool_decide (valueType newFilterDef = "date-range")
             then VDateRange None None
        else VString EmptyString in
      match defaultOperator with
      | None => TypeError
      | Some defaultOperator =>
          let updatedFilter :=
            {| filterId := Some (id newFilterDef);
               operator := Some (op_value defaultOperator);
               value := defaultValue;
               valueLogicOperator :=
                 if is_multi (valueType newFilterDef) then Some "and"
                 else None;
               enabled := enabled filter;
               rest := rest filter |} in
          Ok ((if hasOnFilterTypeChange
               then [onFilterTypeChange (filterId_or_empty filter)
                                        (id newFilterDef)]
               else [])
              ++ [onChange updatedFilter])
      end
  end.

(** The [onChange] handler of the filter type selector; [newValue] is the
    [value] of the chosen option, or [None] when the selection was
    cleared. *)
Definition onFilterSelectChange (hasOnFilterTypeChange : bool)
    (availableFilters : list FilterDefinition) (filter : ActiveFilter)
    (newValue : option string) : result (list call) :=
  match newValue with
  | None =>
      Ok [onChange {| filterId := Some EmptyString;
                      operator := None;
                      value := VString EmptyString;
                      valueLogicOperator := None;
                      enabled := enabled filter;
                      rest := rest filter |}]
  | Some v =>
      let filterDef :=
        List.find (fun f => bool_decide (id f = v)) availableFilters in
      handleFilterTypeChange hasOnFilterTypeChange filter filterDef
  end.

End FilterInput.

End Filters.

(** ** Examples from the hook's documentation *)

Example scenario_typing :
  let m := measure 4 12 in
  let s1 := m (Element "a" 20 20) initial in
  let s2 := m (Element "ab" 26 20) s1 in
  let s3 := m (Element "ab" 15 20) s2 in
  let s4 := m (Element "ab" 7 20) s3 in
  s1 = Detector (Some 20%Z) false /\ s2 = Detector (Some 20%Z) true /\
  s3 = Detector (Some 20%Z) true /\ s4 = Detector (Some 7%Z) false.
Proof. vm_compute. auto. Qed.

Example scenario_two_tasks :
  outstanding (exec 4 12 [Mount (Some (Element "a" 20 20)); PasteEvent;
                          InputEvent (Some "insertText")] init_hook) = 2.
Proof. vm_compute. reflexivity. Qed.

(** Closures of an earlier effect instance, under thresholds 4 and 12:
    one that captured [false] does not release a true state cell at
    overflow -15; one that captured [true] moves the baseline of a
    single-line state from 80 to 60. *)
Example scenario_stale_closures :
  measure_closure 4 12 false (Element "ab" 5 20) (Detector (Some 20%Z) true)
    = Detector (Some 20%Z) true /\
  measure_closure 4 12 true (Element "ab" 60 20) (Detector (Some 80%Z) false)
    = Detector (Some 60%Z) false.
Proof. by vm_compute. Qed.

Example scenario_surviving_timer :
  det (exec 4 12 surviving_timer_run init_hook) = Detector None true.
Proof. by vm_compute. Qed.

(** ** Facts about [measure] *)

Lemma not__true s : not_ s = true <-> s = EmptyString.
Proof. destruct s; simpl; split; congruence. Qed.

Lemma not__false s : not_ s = false <-> s <> EmptyString.
Proof. destruct s; simpl; split; congruence. Qed.

(** Splits [measure] into the paths of its source. *)
Ltac measure_paths :=
  unfold measure, measure_closure, calibrate; simpl;
  repeat match goal with
         | H : ?s <> EmptyString |- context [not_ ?s] =>
             rewrite (proj2 (not__false s) H)
         | H : ?s = EmptyString |- context [not_ ?s] =>
             rewrite (proj2 (not__true s) H)
         | |- context [bool_decide _] => case_bool_decide
         | |- context [decide _] => case_decide
         end; simpl.

Section MeasureFacts.
Local Open Scope Z_scope.
Variables thr rel : Z.

Lemma measure_closure_empty c el st :
  value el = EmptyString ->
  measure_closure thr rel c el st =
    Detector None (if c then false else isMultiline st).
Proof. intros He. by measure_paths. Qed.

Lemma measure_empty el st :
  value el = EmptyString -> measure thr rel el st = Detector None false.
Proof. intros He. measure_paths. by destruct (isMultiline st). Qed.

(** On non-empty content a baseline is stored when [measure] returns,
    whichever value its closure captured. *)
Lemma measure_closure_nonempty_baseline c el st :
  value el <> EmptyString ->
  is_Some (baseHeightRef (measure_closure thr rel c el st)).
Proof.
  intros He. destruct st as [[b|] im], c; measure_paths; eauto.
Qed.

Lemma measure_nonempty_baseline el st :
  value el <> EmptyString -> is_Some (baseHeightRef (measure thr rel el st)).
Proof. apply measure_closure_nonempty_baseline. Qed.

Lemma measure_closure_calibrated c el b im :
  value el <> EmptyString ->
  measure_closure thr rel c el (Detector (Some b) im) =
    if bool_decide (scrollHeight el - b > thr) && negb c
    then Detector (Some b) true
    else if bool_decide (scrollHeight el - b < - rel) && c
         then Detector (Some (scrollHeight el)) false
         else Detector (Some b) im.
Proof.
  intros He. unfold measure_closure. simpl.
  by rewrite (proj2 (not__false _) He).
Qed.

Lemma measure_calibrated el b im :
  value el <> EmptyString ->
  measure thr rel el (Detector (Some b) im) =
    if bool_decide (scrollHeight el - b > thr) && negb im
    then Detector (Some b) true
    else if bool_decide (scrollHeight el - b < - rel) && im
         then Detector (Some (scrollHeight el)) false
         else Detector (Some b) im.
Proof. apply measure_closure_calibrated. Qed.

Lemma measure_preserves_calibrated_when_multiline el st :
  calibrated_when_multiline (measure thr rel el st).
Proof.
  unfold calibrated_when_multiline.
  destruct (decide (value el = EmptyString)) as [He|He].
  - rewrite measure_empty by done. simpl. congruence.
  - intros _ Hn. destruct (measure_nonempty_baseline el st He) as [b Hb].
    congruence.
Qed.

End MeasureFacts.

Lemma measures_snoc thr rel els el st :
  measures thr rel (els ++ [el]) st =
  measure thr rel el (measures thr rel els st).
Proof. unfold measures. by rewrite foldl_app. Qed.

(** ** The hysteresis decision *)

Section Hysteresis.
Local Open Scope Z_scope.

(** C1, as the code has it, for a [measure] call by a closure that
    holds the current [isMultiline] (what a closure of an earlier effect
    instance does is left out). On non-empty content with a stored
    baseline [b], writing [overflow] for [scrollHeight - b]: when
    [overflow] exceeds [threshold] and [isMultiline] is false, [measure]
    sets
    [isMultiline] and keeps [b]; otherwise, when [overflow] is below
    [- releaseThreshold] and [isMultiline] is true, it clears
    [isMultiline] and stores the current [scrollHeight] as baseline; in
    every other case the state is unchanged. Hence, provided
    [threshold + releaseThreshold >= 0], an [overflow] above [threshold]
    yields [isMultiline = true] whatever the prior state; and under any
    thresholds a true [isMultiline] stays true as long as [overflow] is
    not below [- releaseThreshold], in one call and along any sequence
    of calls. *)
Theorem C1_hysteresis_step thr rel el b im :
  value el <> EmptyString ->
  let st := Detector (Some b) im in
  let overflow := scrollHeight el - b in
  let st' := measure thr rel el st in
  (overflow > thr -> im = false -> st' = Detector (Some b) true) /\
  (~ (overflow > thr /\ im = false) -> overflow < - rel -> im = true ->
   st' = Detector (Some (scrollHeight el)) false) /\
  (~ (overflow > thr /\ im = false) -> ~ (overflow < - rel /\ im = true) ->
   st' = st) /\
  (thr + rel >= 0 -> overflow > thr -> isMultiline st' = true) /\
  (im = true -> ~ overflow < - rel -> isMultiline st' = true) /\
  (forall els,
      Forall (fun e => value e <> EmptyString /\
                       ~ scrollHeight e - b < - rel) els ->
      measures thr rel els (Detector (Some b) true) = Detector (Some b) true).
Proof.
  intros He st overflow st'. subst st st' overflow.
  rewrite measure_calibrated by done.
  repeat split; intros; destruct im;
    repeat case_bool_decide; simpl; try done; try lia; try tauto.
  all: match goal with
       | H : Forall _ ?l |- _ =>
           induction l as [|e l IH] using rev_ind; [done|];
           apply Forall_app in H as [Hl [[Hv Hov] _]%Forall_cons];
           rewrite measures_snoc, IH, measure_calibrated by done;
           repeat case_bool_decide; simpl; try done; lia
       end.
Qed.

Lemma C1_hysteresis_step_witness :
  value (Element "ab" 26 20) <> EmptyString /\
  measure 4 12 (Element "ab" 26 20) (Detector (Some 20) false) =
    Detector (Some 20) true.
Proof.
  split; [done|].
  by apply (C1_hysteresis_step 4 12 (Element "ab" 26 20) 20 false).
Defined.

(** C1 as worded fails where the band is inverted: with threshold -10 and
    releaseThreshold -5 (the latter exceeds the former), an overflow of 0
    exceeds the threshold, yet [measure] on a multiline state takes the
    release branch. It also fails, under the default thresholds, for a
    call by a closure that captured [false] while the state cell is true:
    at overflow -15 it does not release. *)
Lemma C1_counterexample :
  ~ (forall thr rel el b im,
        value el <> EmptyString ->
        scrollHeight el - b > thr ->
        isMultiline (measure thr rel el (Detector (Some b) im)) = true) /\
  ~ (forall c el b,
        value el <> EmptyString ->
        scrollHeight el - b < - 12 ->
        isMultiline (measure_closure 4 12 c el (Detector (Some b) true))
          = false).
Proof.
  split; intros H.
  - specialize (H (-10) (-5) (Element "a" 20 20) 20 true).
    vm_compute in H. by discriminate H.
  - specialize (H false (Element "ab" 5 20) 20 ltac:(done) ltac:(simpl; lia)).
    vm_compute in H. by discriminate H.
Qed.

(** C6. Along any sequence of [measure] calls on non-empty content whose
    overflow against the stored baseline stays strictly between
    [- releaseThreshold] and [threshold], neither [isMultiline] nor the
    baseline changes: after every prefix of the sequence the state is the
    one the sequence started from. *)
Theorem C6_dead_band_stable thr rel b im els :
  Forall (fun el => value el <> EmptyString /\
                    - rel < scrollHeight el - b < thr) els ->
  forall k,
    measures thr rel (take k els) (Detector (Some b) im) =
      Detector (Some b) im.
Proof.
  intros Hall k. apply Forall_take with (n := k) in Hall.
  induction (take k els) as [|el l IH] using rev_ind; [done|].
  apply Forall_app in Hall as [Hl Hel].
  apply Forall_singleton in Hel as [He Hband].
  rewrite measures_snoc, IH by done.
  rewrite measure_calibrated by done.
  repeat case_bool_decide; simpl; try done; lia.
Qed.

Lemma C6_dead_band_stable_witness :
  measures 4 12 [Element "ab" 23 20; Element "abc" 10 20; Element "a" 22 20]
           (Detector (Some 20) true) = Detector (Some 20) true.
Proof.
  apply (C6_dead_band_stable 4 12 20 true
           [Element "ab" 23 20; Element "abc" 10 20; Element "a" 22 20])
    with (k := 3%nat).
  repeat (apply List.Forall_cons; [simpl; split; [done | lia] |]).
  apply List.Forall_nil.
Defined.

End Hysteresis.

(** ** Calibration *)

Section Calibration.
Local Open Scope Z_scope.




(** C9, on the code. For a threshold that is not negative and a call
    on non-empty content made while no baseline is stored: when
    [isMultiline] is false at the call, the call ends with [isMultiline]
    set exactly when [scrollHeight > clientHeight + threshold]; when
    [scrollHeight <= clientHeight + threshold] the overflow is 0 and the
    call does not set [isMultiline]. But the hook reaches a state with
    no baseline and [isMultiline] true ([surviving_timer_run]), and the
    next measurement, of one-line content, leaves [isMultiline] true
    although 20 <= 20 + 4. *)
Theorem C9_first_measurement_multiline thr rel el st :
  thr >= 0 ->
  baseHeightRef st = None ->
  value el <> EmptyString ->
  (isMultiline st = false ->
   (isMultiline (measure thr rel el st) = true <->
    scrollHeight el > clientHeight el + thr)) /\
  (scrollHeight el <= clientHeight el + thr ->
   scrollHeight el - calibrate thr el (baseHeightRef st) = 0 /\
   (isMultiline (measure thr rel el st) = true -> isMultiline st = true)) /\
  (let stuck := det (exec 4 12 surviving_timer_run init_hook) in
   let typed := [InputEvent (Some "insertText");
                 TimeoutFires 2 (Element "x" 20 20)] in
   stuck = Detector None true /\
   det (exec 4 12 (surviving_timer_run ++ typed) init_hook) =
     Detector (Some 20) true /\
   measure 4 12 (Element "x" 20 20) stuck = Detector (Some 20) true).
Proof.
  intros Hthr Hb He. destruct st as [b im]. simpl in Hb. subst b.
  split; [|split].
  - simpl. intros ->. measure_paths; split; try done; lia.
  - intros Hov. split; [measure_paths; lia|].
    destruct im; measure_paths; try done; lia.
  - by vm_compute.
Qed.

Lemma C9_first_measurement_multiline_witness :
  isMultiline (measure 4 12 (Element "one line" 22 20) initial) = true <->
  22 > 20 + 4.
Proof.
  apply (C9_first_measurement_multiline 4 12 (Element "one line" 22 20)
           initial ltac:(lia) eq_refl); done.
Defined.

End Calibration.

(** ** Empty content and release *)

Section EmptyAndRelease.
Local Open Scope Z_scope.

(** C5, on the code. On an element whose value is empty, [measure]
    clears the baseline, whatever the heights, which it does not read;
    it clears [isMultiline] when its closure captured [true] and leaves
    the state cell as it is when its closure captured [false]. A call by
    a closure holding the current value therefore ends with
    [isMultiline] false from every prior state. The zero-delay timer that
    survives the cleanup runs the closure of an earlier effect instance:
    in [surviving_timer_run] it captured [false], finds the state cell
    true and the field empty, and leaves [isMultiline] true with no
    baseline. *)
Theorem C5_empty_resets thr rel c el st :
  value el = EmptyString ->
  measure_closure thr rel c el st =
    Detector None (if c then false else isMultiline st) /\
  (forall s k,
      measure_closure thr rel c (Element (value el) s k) st =
      measure_closure thr rel c el st) /\
  measure thr rel el st = Detector None false /\
  (timers (exec 4 12 (removelast surviving_timer_run) init_hook) !! 1%nat =
     Some (afterFrameCb, false) /\
   det (exec 4 12 (removelast surviving_timer_run) init_hook) =
     Detector (Some 20) true /\
   det (exec 4 12 surviving_timer_run init_hook) = Detector None true).
Proof.
  intros He. split; [|split; [|split]].
  - by apply measure_closure_empty.
  - intros s k. by rewrite !measure_closure_empty.
  - by apply measure_empty.
  - by vm_compute.
Qed.

Lemma C5_empty_resets_witness :
  measure_closure 4 12 false (Element EmptyString 20 20)
    (Detector (Some 20) true)
    = Detector None true.
Proof.
  by apply (C5_empty_resets 4 12 false (Element EmptyString 20 20)
              (Detector (Some 20) true)).
Defined.

(** C8, as the code has it. When a [measure] call on non-empty content
    takes [isMultiline] from true to false, the baseline it leaves is the
    [scrollHeight] read in that call, so a second call on the same
    readings computes overflow 0; when [threshold] is not negative that
    second call changes nothing. *)
Theorem C8_release_recalibrates thr rel el st :
  value el <> EmptyString ->
  isMultiline st = true ->
  isMultiline (measure thr rel el st) = false ->
  let st' := measure thr rel el st in
  baseHeightRef st' = Some (scrollHeight el) /\
  scrollHeight el - calibrate thr el (baseHeightRef st') = 0 /\
  (thr >= 0 -> measure thr rel el st' = st').
Proof.
  intros He Him Hrel st'. subst st'. destruct st as [b im]. simpl in Him. subst im.
  assert (measure thr rel el (Detector b true) =
          Detector (Some (scrollHeight el)) false) as ->.
  { revert Hrel. measure_paths; simpl; intros; try done. }
  simpl. split; [done|]. split; [lia|].
  intros Hthr. rewrite measure_calibrated by done.
  repeat case_bool_decide; simpl; try done; lia.
Qed.

Lemma C8_release_recalibrates_witness :
  measure 4 12 (Element "ab" 7 20) (Detector (Some 20) true)
    = Detector (Some 7) false /\
  measure 4 12 (Element "ab" 7 20) (Detector (Some 7) false)
    = Detector (Some 7) false.
Proof.
  pose proof (C8_release_recalibrates 4 12 (Element "ab" 7 20)
                (Detector (Some 20) true) ltac:(done) eq_refl eq_refl)
    as (_ & _ & Hnoop).
  split; [reflexivity | apply Hnoop; lia].
Defined.

(** C8 as worded fails on two accounts. A [measure] call on empty
    content takes [isMultiline] from true to false and leaves no baseline
    at all; and under a negative threshold the call that follows a
    release sees overflow 0 above the threshold and sets [isMultiline]
    again. *)
Lemma C8_counterexample :
  ~ (forall thr rel el st,
        isMultiline st = true ->
        isMultiline (measure thr rel el st) = false ->
        baseHeightRef (measure thr rel el st) = Some (scrollHeight el))
  /\
  ~ (forall thr rel el st,
        value el <> EmptyString ->
        isMultiline st = true ->
        isMultiline (measure thr rel el st) = false ->
        measure thr rel el (measure thr rel el st) = measure thr rel el st).
Proof.
  split; intros H.
  - specialize (H 4 12 (Element EmptyString 20 20) (Detector (Some 20) true)
                  eq_refl eq_refl).
    vm_compute in H. by discriminate H.
  - specialize (H (-1) 12 (Element "a" 10 20) (Detector (Some 30) true)
                  ltac:(done) eq_refl eq_refl).
    vm_compute in H. by discriminate H.
Qed.

End EmptyAndRelease.

(** ** Runs of the hook and the detector state *)

Section RunFacts.
Local Open Scope Z_scope.
Variables thr rel : Z.

Lemma measures_app els1 els2 st :
  measures thr rel (els1 ++ els2) st =
  measures thr rel els2 (measures thr rel els1 st).
Proof. unfold measures. by rewrite foldl_app. Qed.

Lemma timeouts_lookup h id :
  timeouts h !! id = fst <$> timers h !! id.
Proof. unfold timeouts. apply lookup_fmap. Qed.

(** A step changes the detector state only by a [measure] call on the
    reading it is counted with, made by some closure. *)
Lemma step_det h ev :
  match measured h ev with
  | [] => det (step thr rel h ev) = det h
  | el :: _ =>
      exists c, det (step thr rel h ev) = measure_closure thr rel c el (det h)
  end.
Proof.
  destruct ev as [[el|]| |ty| |id el|id]; simpl; try done.
  - by exists (isMultiline (det h)).
  - unfold cleanup. by destruct h as [d [t|] [r|] tm fm nt nf].
  - unfold handleInput. case_decide;
      by destruct h as [d [t|] [r|] tm fm nt nf].
  - by destruct h as [d [t|] [r|] tm fm nt nf].
  - rewrite timeouts_lookup. unfold fire_timeout.
    destruct (timers h !! id) as [[[] c]|]; simpl; [by exists c ..|done].
  - unfold fire_frame. by destruct (animationFrames h !! id).
Qed.

Lemma exec_det_unmeasured tr h :
  trace_measured thr rel tr h = [] -> det (exec thr rel tr h) = det h.
Proof.
  revert h. induction tr as [|ev tr IH]; intros h; simpl; [done|].
  intros [Hm Htr]%app_eq_nil. rewrite (IH _ Htr).
  pose proof (step_det h ev) as Hstep. by rewrite Hm in Hstep.
Qed.

(** Where a stored baseline comes from, whichever closure measured. *)
Lemma measure_baseline_source c el st b :
  baseHeightRef (measure_closure thr rel c el st) = Some b ->
  baseHeightRef st = Some b \/
  value el <> EmptyString /\
  (b = scrollHeight el \/
   b = clientHeight el /\ scrollHeight el > clientHeight el + thr).
Proof.
  destruct (decide (value el = EmptyString)) as [He|He].
  { by rewrite measure_closure_empty. }
  destruct st as [[b0|] im], c; measure_paths; intros [= <-]; auto.
Qed.

Lemma exec_baseline_source tr h b :
  baseHeightRef (det (exec thr rel tr h)) = Some b ->
  baseHeightRef (det h) = Some b \/
  exists el, el ∈ trace_measured thr rel tr h /\ value el <> EmptyString /\
    (b = scrollHeight el \/
     b = clientHeight el /\ scrollHeight el > clientHeight el + thr).
Proof.
  revert h. induction tr as [|ev tr IH]; intros h; simpl; [by left|].
  intros Hb. destruct (IH _ Hb) as [Hb'|(el & Hin & Hel)].
  - pose proof (step_det h ev) as Hstep.
    destruct (measured h ev) as [|el els] eqn:Hm.
    + left. congruence.
    + destruct Hstep as [c Hstep]. rewrite Hstep in Hb'.
      apply measure_baseline_source in Hb' as [?|?]; [by left|].
      right. exists el. split; [apply elem_of_cons; by left | done].
  - right. exists el. split; [apply elem_of_app; by right | done].
Qed.

End RunFacts.

(** ** Invariants of the detector state *)

Section DetectorInvariants.
Local Open Scope Z_scope.

(** C10, on the code. A [measure] call by a closure that holds the
    current [isMultiline] ends, from any state, with "[isMultiline]
    implies a stored baseline", and so does a call on non-empty content
    by any closure. A closure that captured [false] and runs on empty
    content while the state cell is true breaks it: after
    [surviving_timer_run] the hook has [isMultiline] true and no
    baseline. *)
Theorem C10_multiline_has_baseline thr rel el st :
  calibrated_when_multiline (measure thr rel el st) /\
  (forall c, value el <> EmptyString ->
             calibrated_when_multiline (measure_closure thr rel c el st)) /\
  (let d := det (exec 4 12 surviving_timer_run init_hook) in
   isMultiline d = true /\ baseHeightRef d = None /\
   ~ calibrated_when_multiline d).
Proof.
  split; [|split].
  - apply measure_preserves_calibrated_when_multiline.
  - intros c He _ Hb.
    destruct (measure_closure_nonempty_baseline thr rel c el st He) as [b Hb'].
    congruence.
  - vm_compute. split; [done|]. split; [done|]. intros H. by apply H.
Qed.

Lemma C10_multiline_has_baseline_witness :
  calibrated_when_multiline
    (measure_closure 4 12 false (Element "ab" 5 20) (Detector (Some 20) true)).
Proof.
  destruct (C10_multiline_has_baseline 4 12 (Element "ab" 5 20)
              (Detector (Some 20) true)) as (_ & Hclosure & _).
  by apply (Hclosure false).
Defined.

(** C4, as the code has it. After every run of the hook the stored
    baseline, when there is one, is a height read from the element in an
    earlier [measure] call on non-empty content: its [scrollHeight], or
    its [clientHeight] when that call found the content overflowing
    ([scrollHeight > clientHeight + threshold]). *)
Theorem C4_baseline_observed thr rel tr b :
  baseHeightRef (det (exec thr rel tr init_hook)) = Some b ->
  exists el,
    el ∈ trace_measured thr rel tr init_hook /\
    value el <> EmptyString /\
    (b = scrollHeight el \/
     b = clientHeight el /\ scrollHeight el > clientHeight el + thr).
Proof.
  intros Hb. by apply exec_baseline_source in Hb as [Hb|Hb].
Qed.

Lemma C4_baseline_observed_witness :
  exists el,
    el ∈ [Element EmptyString 20 20; Element "pasted text" 50 20] /\
    value el <> EmptyString /\
    (20 = scrollHeight el \/
     20 = clientHeight el /\ scrollHeight el > clientHeight el + 4).
Proof.
  apply (C4_baseline_observed 4 12
           [Mount (Some (Element EmptyString 20 20)); PasteEvent;
            FrameFires 0; TimeoutFires 0 (Element "pasted text" 50 20)] 20).
  reflexivity.
Defined.

(** C4 as worded fails: after an empty field is mounted and a paste is
    measured at scrollHeight 50 and clientHeight 20, the baseline is 20,
    the [clientHeight], while the only [scrollHeight] read is 50. *)
Lemma C4_counterexample :
  ~ (forall thr rel tr b,
        baseHeightRef (det (exec thr rel tr init_hook)) = Some b ->
        exists el,
          el ∈ trace_measured thr rel tr init_hook /\
          value el <> EmptyString /\ b = scrollHeight el).
Proof.
  intros H.
  destruct (H 4 12
              [Mount (Some (Element EmptyString 20 20)); PasteEvent;
               FrameFires 0; TimeoutFires 0 (Element "pasted text" 50 20)]
              20 eq_refl) as (el & Hin & He & Hb).
  vm_compute in Hin.
  apply elem_of_cons in Hin as [->|Hin]; [by apply He|].
  apply list_elem_of_singleton in Hin as ->. by discriminate Hb.
Qed.

End DetectorInvariants.

(** ** Scheduling facts *)

(** Opens the table updates found in a hypothesis. *)
Ltac open_tables :=
  repeat match goal with
         | H : delete _ _ !! _ = Some _ |- _ =>
             apply lookup_delete_Some in H as [? ?]
         | H : <[_:=_]> _ !! _ = Some _ |- _ =>
             apply lookup_insert_Some in H as [[? ?]|[? ?]]
         | H : _ ∈ _ ∖ _ |- _ => apply elem_of_difference in H as [? ?]
         | H : _ ∈ _ ∪ _ |- _ => apply elem_of_union in H as [?|?]
         | H : _ ∈ {[_]} |- _ => apply elem_of_singleton in H
         | H : Some _ = Some _ |- _ => injection H as H
         | H : None = Some _ |- _ => discriminate H
         end; subst.

(** Reads the pending timers and frame requests of an explicit hook
    state through [timeouts] and [frames]. *)
Ltac views :=
  unfold timeouts, frames in *; simpl in *;
  rewrite ?fmap_insert, ?fmap_delete, ?dom_insert_L, ?dom_delete_L;
  simpl.

Section SchedulingFacts.
Variables thr rel : Z.

Lemma init_hook_inv : sched_inv init_hook.
Proof. split; views; intros; (done || set_solver). Qed.

Lemma set_det_inv f h : sched_inv h -> sched_inv (set_det f h).
Proof. intros [I1 I2 I3 I4 I5 I6]. by split. Qed.

Lemma clearPendingTimers_inv h :
  sched_inv h -> sched_inv (clearPendingTimers h).
Proof.
  destruct h as [d [t|] [r|] tm fm nt nf]; intros [I1 I2 I3 I4 I5 I6];
    split; views; intros; open_tables; eauto; try done.
  all: by match goal with
          | H : _ !! _ = Some measureCb |- _ => apply I2 in H; simplify_eq
          end.
Qed.

Lemma debouncedMeasure_inv h : sched_inv h -> sched_inv (debouncedMeasure h).
Proof.
  destruct h as [d [t|] r tm fm nt nf]; intros [I1 I2 I3 I4 I5 I6];
    split; views; intros; open_tables; eauto; try lia.
  all: try match goal with
           | H : _ !! _ = Some _ |- _ < S _ => apply I1 in H; lia
           | H : _ !! _ = Some measureCb |- _ =>
               apply I2 in H; by simplify_eq
           | |- <[?n:=_]> _ !! ?n <> _ => by rewrite lookup_insert_eq
           end.
Qed.

Lemma measureAfterFrame_inv h :
  sched_inv h -> sched_inv (measureAfterFrame h).
Proof.
  destruct h as [d t [r|] tm fm nt nf]; intros [I1 I2 I3 I4 I5 I6];
    split; views; intros; open_tables; eauto; try lia.
  all: match goal with
       | H : _ ∈ _ |- _ => apply I5 in H; lia
       end.
Qed.

Lemma fire_timeout_inv id el h :
  sched_inv h -> sched_inv (fire_timeout thr rel id el h).
Proof.
  unfold fire_timeout.
  destruct (timers h !! id) as [[[] c]|] eqn:Hid; [| |done].
  all: destruct h as [d t r tm fm nt nf]; intros [I1 I2 I3 I4 I5 I6];
    split; views; intros; open_tables; eauto; try done.
  all: rewrite lookup_delete; case_decide; [done | by apply I4].
Qed.

Lemma fire_frame_inv id h : sched_inv h -> sched_inv (fire_frame id h).
Proof.
  unfold fire_frame.
  destruct (animationFrames h !! id) as [c|] eqn:Hid; [|done].
  destruct h as [d t r tm fm nt nf]; intros [I1 I2 I3 I4 I5 I6];
    split; views; intros; open_tables; eauto; try done.
  all: try match goal with
           | H : _ !! _ = Some _ |- _ < S _ => apply I1 in H; lia
           end.
  - specialize (I3 _ eq_refl). lia.
  - specialize (I3 _ eq_refl).
    rewrite lookup_insert_ne by lia. by apply I4.
Qed.

Lemma step_inv h ev : sched_inv h -> sched_inv (step thr rel h ev).
Proof.
  intros Hi. destruct ev as [[el|]| |ty| |id el|id]; simpl.
  - by apply set_det_inv.
  - done.
  - by apply clearPendingTimers_inv.
  - unfold handleInput. case_decide.
    + by apply measureAfterFrame_inv, clearPendingTimers_inv.
    + by apply debouncedMeasure_inv.
  - by apply measureAfterFrame_inv, clearPendingTimers_inv.
  - by apply fire_timeout_inv.
  - by apply fire_frame_inv.
Qed.

Lemma exec_inv tr h : sched_inv h -> sched_inv (exec thr rel tr h).
Proof.
  revert h. induction tr as [|ev tr IH]; intros h Hi; [done|].
  simpl. by apply IH, step_inv.
Qed.

End SchedulingFacts.

(** ** What the two scheduling paths cancel *)

Section Paths.
Variables thr rel : Z.




(** The paste path: no debounce timer survives it, the frame request the
    hook had on record is gone and a new one is pending. *)
Lemma paste_path h :
  sched_inv h ->
  let h' := measureAfterFrame (clearPendingTimers h) in
  (forall id, timeouts h' !! id <> Some measureCb) /\
  (forall r, rafRef h = Some r -> r ∉ frames h') /\
  nextFrame h ∈ frames h' /\
  rafRef h' = Some (nextFrame h) /\
  nextTimeout h' = nextTimeout h.
Proof.
  destruct h as [d [t|] [r|] tm fm nt nf]; intros [I1 I2 I3 I4 I5 I6];
    views; repeat split; try done.
  all: try (intros id Hid; open_tables;
            match goal with
            | H : _ !! _ = Some measureCb |- _ => apply I2 in H
            end; by simplify_eq).
  all: try (intros r' [= <-]; specialize (I6 _ eq_refl); set_unfold; lia).
  all: set_unfold; auto.
Qed.

(** The debounce path: the new timer is the only debounce timer pending;
    the pending frame requests and zero-delay timers of the paste path
    are as before. *)
Lemma debounce_path h :
  sched_inv h ->
  let h' := debouncedMeasure h in
  (forall id, timeouts h' !! id = Some measureCb <-> id = nextTimeout h) /\
  (forall id, timeouts h' !! id = Some afterFrameCb <->
              timeouts h !! id = Some afterFrameCb) /\
  frames h' = frames h.
Proof.
  destruct h as [d [t|] r tm fm nt nf]; intros [I1 I2 I3 I4 I5 I6];
    views; repeat split; try done.
  all: try (intros Hid; open_tables; [done|];
            match goal with
            | H : _ !! _ = Some measureCb |- _ => apply I2 in H
            end; by simplify_eq).
  all: try (intros ->; apply lookup_insert_eq).
  all: try (intros Hid; by open_tables).
  all: intros Hid; pose proof (I1 _ _ Hid);
    rewrite lookup_insert_ne by lia; try done.
  rewrite lookup_delete_ne; [done|]. intros ->. by apply (I4 id).
Qed.

End Paths.

(** ** Outstanding measurement tasks *)

Section Outstanding.

(** C3, as the code has it. Along every run at most one debounce timer
    is pending. Scheduling on the debounce path cancels the pending
    debounce timer and nothing else: afterwards the new timer is the only
    debounce timer, and the frame requests and zero-delay timers of the
    paste path are pending as before. Scheduling on the paste path leaves
    no debounce timer pending, removes the frame request the hook has on
    record and leaves the new request pending and on record. *)
Theorem C3_cancel_before_schedule thr rel tr :
  let h := exec thr rel tr init_hook in
  (forall id1 id2,
      timeouts h !! id1 = Some measureCb ->
      timeouts h !! id2 = Some measureCb -> id1 = id2) /\
  (forall ty, ty <> Some "insertFromPaste" ->
      let h' := step thr rel h (InputEvent ty) in
      (forall id, timeouts h' !! id = Some measureCb <-> id = nextTimeout h) /\
      (forall id, timeouts h' !! id = Some afterFrameCb <->
                  timeouts h !! id = Some afterFrameCb) /\
      frames h' = frames h) /\
  (forall ev, ev = PasteEvent \/ ev = InputEvent (Some "insertFromPaste") ->
      let h' := step thr rel h ev in
      (forall id, timeouts h' !! id <> Some measureCb) /\
      (forall r, rafRef h = Some r -> r ∉ frames h') /\
      nextFrame h ∈ frames h' /\
      rafRef h' = Some (nextFrame h)).
Proof.
  intros h. assert (sched_inv h) as Hi by apply exec_inv, init_hook_inv.
  split; [|split].
  - intros id1 id2 H1 H2.
    apply (inv_debounce h Hi) in H1. apply (inv_debounce h Hi) in H2.
    congruence.
  - intros ty Hty. simpl. unfold handleInput.
    rewrite decide_False by done. by apply debounce_path.
  - intros ev [-> | ->]; simpl; unfold handleInput, handlePaste;
      rewrite ?decide_True by done;
      destruct (paste_path h Hi) as (? & ? & ? & ? & _); auto.
Qed.

Lemma C3_cancel_before_schedule_witness :
  let h := exec 4 12 [Mount (Some (Element "a" 20 20)); PasteEvent] init_hook in
  Some "insertText" <> Some "insertFromPaste" /\
  frames (step 4 12 h (InputEvent (Some "insertText"))) = frames h.
Proof.
  intros h. split; [done|].
  destruct (C3_cancel_before_schedule 4 12
              [Mount (Some (Element "a" 20 20)); PasteEvent])
    as (_ & Hdebounce & _).
  destruct (Hdebounce (Some "insertText") ltac:(done)) as (_ & _ & Hfr).
  exact Hfr.
Defined.

(** C3 as worded fails: a paste followed by a keystroke leaves the frame
    request of the paste and the debounce timer of the keystroke pending
    together, and both measurements run, the one of the paste after the
    one of the later keystroke. *)
Lemma C3_counterexample :
  ~ (forall thr rel tr, outstanding (exec thr rel tr init_hook) <= 1) /\
  (let typed :=
     [Mount (Some (Element "a" 20 20)); PasteEvent;
      InputEvent (Some "insertText")] in
   let h := exec 4 12 typed init_hook in
   outstanding h = 2 /\
   timeouts h !! 0 = Some measureCb /\ 0 ∈ frames h /\
   trace_measured 4 12
     (typed ++ [TimeoutFires 0 (Element "ab" 20 20); FrameFires 0;
                TimeoutFires 1 (Element "ab" 20 20)]) init_hook =
     [Element "a" 20 20; Element "ab" 20 20; Element "ab" 20 20]).
Proof.
  split.
  - intros H.
    specialize (H 4%Z 12%Z [Mount (Some (Element "a" 20 20)); PasteEvent;
                            InputEvent (Some "insertText")]).
    vm_compute in H. lia.
  - vm_compute. by repeat split.
Qed.



End Outstanding.

(** ** Further properties of [measure] *)

Section MeasureProperties.
Local Open Scope Z_scope.

(** X1. Under thresholds with [threshold >= 0] and
    [threshold + releaseThreshold >= 0], [measure] is idempotent on
    unchanged readings: whatever the prior state, a second call on the
    same element changes nothing, so the call the effect makes when it is
    re-created after a change of [isMultiline] settles at once. *)
Theorem X1_measure_idempotent thr rel el st :
  thr >= 0 -> thr + rel >= 0 ->
  measure thr rel el (measure thr rel el st) = measure thr rel el st.
Proof.
  intros Hthr Hrel.
  destruct (decide (value el = EmptyString)) as [He|He].
  { by rewrite !measure_empty. }
  assert (forall b im,
             measure thr rel el (measure thr rel el (Detector (Some b) im)) =
             measure thr rel el (Detector (Some b) im)) as Hsome.
  { intros b im. rewrite (measure_calibrated thr rel el b im He).
    destruct im; repeat case_bool_decide; simpl;
      rewrite measure_calibrated by done;
      repeat case_bool_decide; simpl; try done; lia. }
  destruct st as [[b|] im]; [apply Hsome|].
  apply (Hsome (calibrate thr el None) im).
Qed.

Lemma X1_measure_idempotent_witness :
  measure 4 12 (Element "pasted text" 50 20)
    (measure 4 12 (Element "pasted text" 50 20) initial)
  = measure 4 12 (Element "pasted text" 50 20) initial.
Proof.
  apply (X1_measure_idempotent 4 12 (Element "pasted text" 50 20) initial);
    lia.
Defined.

(** X2. Whatever the prior state and the thresholds, [measure] leaves no
    baseline exactly when the element's value is empty: on non-empty
    content a baseline is always stored on return. *)
Theorem X2_baseline_iff_nonempty thr rel el st :
  baseHeightRef (measure thr rel el st) = None <-> value el = EmptyString.
Proof.
  split.
  - intros Hb. destruct (decide (value el = EmptyString)) as [He|He]; [done|].
    destruct (measure_nonempty_baseline thr rel el st He) as [b Hb'].
    congruence.
  - intros He. by rewrite measure_empty.
Qed.

(** X3. On non-empty content, under thresholds with [threshold >= 0] and
    [threshold + releaseThreshold >= 0], the state returned by a
    [measure] call whose closure holds the current [isMultiline] agrees
    with the reading it was given, from any prior state: against the
    baseline it leaves, [isMultiline = false] comes with an overflow of
    at most [threshold] and [isMultiline = true] with an overflow of at
    least [- releaseThreshold]. (A closure of an earlier effect instance
    gives no such guarantee.) *)
Theorem X3_state_agrees_with_reading thr rel el st :
  value el <> EmptyString ->
  thr >= 0 -> thr + rel >= 0 ->
  exists b,
    baseHeightRef (measure thr rel el st) = Some b /\
    (isMultiline (measure thr rel el st) = false ->
     scrollHeight el - b <= thr) /\
    (isMultiline (measure thr rel el st) = true ->
     scrollHeight el - b >= - rel).
Proof.
  intros He Hthr Hrel.
  destruct st as [[b|] []]; measure_paths;
    (eexists; split; [reflexivity|]); split; intros; try done; lia.
Qed.

Lemma X3_state_agrees_with_reading_witness :
  exists b,
    baseHeightRef (measure 4 12 (Element "ab" 7 20) (Detector (Some 20) true))
      = Some b /\
    (isMultiline (measure 4 12 (Element "ab" 7 20) (Detector (Some 20) true))
       = false -> 7 - b <= 4) /\
    (isMultiline (measure 4 12 (Element "ab" 7 20) (Detector (Some 20) true))
       = true -> 7 - b >= - 12).
Proof.
  apply (X3_state_agrees_with_reading 4 12 (Element "ab" 7 20)
           (Detector (Some 20) true)); [done | lia | lia].
Defined.

End MeasureProperties.

(** ** Further properties of the scheduling *)

Section SchedulingProperties.

Lemma exec_app thr rel tr1 tr2 h :
  exec thr rel (tr1 ++ tr2) h = exec thr rel tr2 (exec thr rel tr1 h).
Proof. unfold exec. by rewrite foldl_app. Qed.

Lemma run_inv thr rel tr : sched_inv (exec thr rel tr init_hook).
Proof. apply exec_inv, init_hook_inv. Qed.

Lemma debouncedMeasure_nextTimeout h :
  nextTimeout (debouncedMeasure h) = S (nextTimeout h).
Proof. by destruct h as [d [t|] r ts fs nt nf]. Qed.

Lemma keystrokes_not_measured thr rel tys h :
  trace_measured thr rel (keystrokes tys) h = [].
Proof. revert h. induction tys as [|ty tys IH]; intros h; simpl; auto. Qed.

Lemma keystrokes_burst thr rel tys h :
  sched_inv h ->
  Forall (fun ty => ty <> Some "insertFromPaste") tys ->
  let h' := exec thr rel (keystrokes tys) h in
  sched_inv h' /\
  nextTimeout h' = nextTimeout h + length tys /\
  frames h' = frames h /\
  (forall id, timeouts h' !! id = Some afterFrameCb <->
              timeouts h !! id = Some afterFrameCb) /\
  (tys <> [] ->
   forall id, timeouts h' !! id = Some measureCb <->
              id = nextTimeout h + length tys - 1).
Proof.
  intros Hi Hall. induction tys as [|ty tys IH] using rev_ind.
  { simpl. split; [done|]. split; [lia|]. by repeat split. }
  apply Forall_app in Hall as [Hall Hty].
  rewrite Forall_singleton in Hty.
  destruct (IH Hall) as (Hi' & Hnt & Hfr & Haf & _). clear IH.
  unfold keystrokes. rewrite fmap_app, exec_app. simpl.
  unfold handleInput. rewrite decide_False by done.
  fold (keystrokes tys). set (h1 := exec thr rel (keystrokes tys) h) in *.
  destruct (debounce_path h1 Hi') as (Hm & Haf' & Hfr').
  rewrite length_app. cbn [length].
  split; [by apply debouncedMeasure_inv|].
  split; [rewrite debouncedMeasure_nextTimeout; lia|].
  split; [congruence|].
  split; [intros id; by rewrite Haf', Haf|].
  intros _ id. rewrite Hm, Hnt. split; intros ->; lia.
Qed.

(** X4. A burst of input events that do not come from a paste, arriving
    at any point of a run and before any of their timers fires, is
    coalesced: no [measure] call is made and the detector state is
    untouched, the pending tasks of the paste path are as before, and
    exactly one debounce timer is left pending, the one of the last
    event. *)
Theorem X4_keystroke_burst thr rel tr tys :
  let h := exec thr rel tr init_hook in
  tys <> [] ->
  Forall (fun ty => ty <> Some "insertFromPaste") tys ->
  let h' := exec thr rel (keystrokes tys) h in
  trace_measured thr rel (keystrokes tys) h = [] /\
  det h' = det h /\
  frames h' = frames h /\
  (forall id, timeouts h' !! id = Some afterFrameCb <->
              timeouts h !! id = Some afterFrameCb) /\
  (forall id, timeouts h' !! id = Some measureCb <->
              id = nextTimeout h + length tys - 1).
Proof.
  intros h Hne Hall h'.
  destruct (keystrokes_burst thr rel tys h (run_inv thr rel tr) Hall) as (_ & _ & ? & ? & Hm).
  split; [apply keystrokes_not_measured|].
  split; [|by auto].
  subst h'. apply exec_det_unmeasured, keystrokes_not_measured.
Qed.

Lemma X4_keystroke_burst_witness :
  let h := exec 4 12 [Mount (Some (Element "a" 20 20)); PasteEvent] init_hook in
  let h' := exec 4 12 (keystrokes [Some "insertText"; None;
                                   Some "deleteContentBackward"]) h in
  det h' = det h /\ frames h' = frames h.
Proof.
  intros h h'.
  destruct (X4_keystroke_burst 4 12
              [Mount (Some (Element "a" 20 20)); PasteEvent]
              [Some "insertText"; None; Some "deleteContentBackward"])
    as (_ & Hdet & Hfr & _).
  - done.
  - repeat (apply List.Forall_cons; [done|]). apply List.Forall_nil.
  - split; [exact Hdet | exact Hfr].
Defined.

End SchedulingProperties.

(** ** From an event to its measurement *)

Section Rounds.

(** What the firing of a pending timer does. *)
Lemma fire_timeout_pending thr rel h id el cb c :
  timers h !! id = Some (cb, c) ->
  let h' := fire_timeout thr rel id el h in
  det h' = measure_closure thr rel c el (det h) /\
  timers h' = delete id (timers h) /\
  timeouts h' = delete id (timeouts h) /\
  animationFrames h' = animationFrames h /\
  debounceTimerRef h' = debounceTimerRef h /\
  rafRef h' = match cb with measureCb => rafRef h | afterFrameCb => None end.
Proof.
  intros Hid. unfold fire_timeout. rewrite Hid.
  destruct cb, h as [d t r tm fm nt nf]; unfold timeouts; simpl;
    by rewrite fmap_delete.
Qed.

(** What the firing of a pending frame request does. *)
Lemma fire_frame_pending h id c :
  animationFrames h !! id = Some c ->
  let h' := fire_frame id h in
  det h' = det h /\
  timers h' = <[nextTimeout h := (afterFrameCb, c)]> (timers h) /\
  animationFrames h' = delete id (animationFrames h) /\
  debounceTimerRef h' = debounceTimerRef h /\
  rafRef h' = rafRef h /\
  nextTimeout h' = S (nextTimeout h).
Proof.
  intros Hid. unfold fire_frame. rewrite Hid.
  by destruct h as [d t r tm fm nt nf].
Qed.

(** X5. The debounce path, end to end. At any point of a run, an input
    event that does not come from a paste followed by the firing of its
    timer makes exactly one [measure] call, on the readings current when
    the timer fires; afterwards no debounce timer is pending and the
    pending tasks of the paste path are as they were. *)
Theorem X5_debounce_round thr rel tr ty el :
  let h := exec thr rel tr init_hook in
  ty <> Some "insertFromPaste" ->
  let h' := exec thr rel [InputEvent ty; TimeoutFires (nextTimeout h) el] h in
  trace_measured thr rel
    [InputEvent ty; TimeoutFires (nextTimeout h) el] h = [el] /\
  det h' = measure thr rel el (det h) /\
  (forall id, timeouts h' !! id <> Some measureCb) /\
  (forall id, timeouts h' !! id = Some afterFrameCb <->
              timeouts h !! id = Some afterFrameCb) /\
  frames h' = frames h.
Proof.
  intros h Hty h'. pose proof (run_inv thr rel tr) as Hi. fold h in Hi.
  destruct (debounce_path h Hi) as (Hm & Haf & Hfr).
  assert (timers (debouncedMeasure h) !! nextTimeout h =
          Some (measureCb, isMultiline (det h))) as Hpending.
  { destruct h as [d [t|] r tm fm nt nf]; simpl; by rewrite lookup_insert_eq. }
  assert (det (debouncedMeasure h) = det h) as Hdet
    by by destruct h as [d [t|] r tm fm nt nf].
  destruct (fire_timeout_pending thr rel _ _ el _ _ Hpending)
    as (Hd & _ & Hts & Hfs & _).
  subst h'. simpl. unfold handleInput. rewrite decide_False by done.
  rewrite timeouts_lookup, Hpending. simpl.
  split; [done|]. split; [by rewrite Hd, Hdet|].
  rewrite Hts. unfold frames. rewrite Hfs. fold (frames (debouncedMeasure h)).
  split; [|split; [|done]].
  - intros id Hid. apply lookup_delete_Some in Hid as [Hne Hid].
    apply Hm in Hid. congruence.
  - intros id. rewrite <- Haf. split.
    + by intros [_ ?]%lookup_delete_Some.
    + intros Hid. apply lookup_delete_Some. split; [|done].
      intros <-. by rewrite (proj2 (Hm _) eq_refl) in Hid.
Qed.

Lemma X5_debounce_round_witness :
  det (exec 4 12 [InputEvent (Some "insertText");
                  TimeoutFires 0 (Element "ab" 26 20)]
         (exec 4 12 [Mount (Some (Element "a" 20 20))] init_hook))
  = Detector (Some 20%Z) true.
Proof.
  destruct (X5_debounce_round 4 12 [Mount (Some (Element "a" 20 20))]
              (Some "insertText") (Element "ab" 26 20) ltac:(done))
    as (_ & Hdet & _).
  exact Hdet.
Defined.

(** X6. The paste path, end to end. From any state of the hook, a paste
    notification followed by the firing of its frame request and then of
    the zero-delay timer the frame callback arms makes exactly one
    [measure] call, on the readings current when that timer fires, and
    leaves both handles cleared and neither the frame request nor the
    timer pending. *)
Theorem X6_paste_round thr rel h ev el :
  ev = PasteEvent \/ ev = InputEvent (Some "insertFromPaste") ->
  let h' :=
    exec thr rel
      [ev; FrameFires (nextFrame h); TimeoutFires (nextTimeout h) el] h in
  trace_measured thr rel
    [ev; FrameFires (nextFrame h); TimeoutFires (nextTimeout h) el] h = [el] /\
  det h' = measure thr rel el (det h) /\
  debounceTimerRef h' = None /\ rafRef h' = None /\
  (nextFrame h ∉ frames h') /\
  timeouts h' !! nextTimeout h = None.
Proof.
  intros Hev h'.
  assert (step thr rel h ev = handlePaste h) as Hstep.
  { destruct Hev as [-> | ->]; simpl; [done|].
    unfold handleInput. by rewrite decide_True. }
  assert (measured h ev = []) as Hm by by destruct Hev as [-> | ->].
  set (h1 := handlePaste h).
  assert (animationFrames h1 !! nextFrame h = Some (isMultiline (det h)) /\
          det h1 = det h /\ nextTimeout h1 = nextTimeout h /\
          debounceTimerRef h1 = None) as (Hf & Hd1 & Hn1 & Hr1).
  { subst h1. destruct h as [d [t|] [r|] tm fm nt nf]; simpl;
      by rewrite lookup_insert_eq. }
  destruct (fire_frame_pending h1 _ _ Hf)
    as (Hd2 & Ht2 & Hf2 & Hr2 & _ & _).
  set (h2 := fire_frame (nextFrame h) h1) in *.
  assert (timers h2 !! nextTimeout h =
          Some (afterFrameCb, isMultiline (det h))) as Ht.
  { by rewrite Ht2, Hn1, lookup_insert_eq. }
  destruct (fire_timeout_pending thr rel h2 _ el _ _ Ht)
    as (Hd3 & _ & Hts3 & Hf3 & Hr3 & Hraf3).
  subst h'. cbn [trace_measured exec foldl step]. rewrite Hstep, Hm.
  fold h1. fold h2. simpl. rewrite timeouts_lookup, Ht. simpl.
  split; [done|]. split; [by rewrite Hd3, Hd2, Hd1|].
  split; [by rewrite Hr3, Hr2|]. split; [done|]. split.
  - unfold frames. rewrite Hf3, Hf2, dom_delete_L.
    intros [_ Hn]%elem_of_difference. apply Hn. by apply elem_of_singleton.
  - by rewrite Hts3, lookup_delete_eq.
Qed.

Lemma X6_paste_round_witness :
  det (exec 4 12 [PasteEvent; FrameFires 0;
                  TimeoutFires 0 (Element "pasted text" 50 20)] init_hook)
  = Detector (Some 20%Z) true.
Proof.
  destruct (X6_paste_round 4 12 init_hook PasteEvent
              (Element "pasted text" 50 20) (or_introl eq_refl))
    as (_ & Hdet & _).
  exact Hdet.
Defined.

End Rounds.

(** ** What the cleanup cancels and what it cannot *)

Section Teardown.

(** X7. At any point of a run the effect's cleanup clears both handles,
    leaves no debounce timer pending, removes the frame request that was
    on record, and does not touch the detector state; running it a second
    time changes nothing. *)
Theorem X7_cleanup thr rel tr :
  let h := exec thr rel tr init_hook in
  let h' := step thr rel h Cleanup in
  debounceTimerRef h' = None /\ rafRef h' = None /\
  (forall id, timeouts h' !! id <> Some measureCb) /\
  (forall r, rafRef h = Some r -> r ∉ frames h') /\
  det h' = det h /\
  step thr rel h' Cleanup = h'.
Proof.
  intros h h'. pose proof (run_inv thr rel tr) as Hi. fold h in Hi.
  subst h'. simpl. unfold cleanup.
  destruct h as [d [t|] [r|] tm fm nt nf], Hi as [I1 I2 I3 I4 I5 I6];
    views; repeat split; try done.
  all: try (intros id Hid; open_tables;
            match goal with
            | H : _ !! _ = Some measureCb |- _ => apply I2 in H
            end; by simplify_eq).
  all: intros r' [= <-]; set_unfold; tauto.
Qed.

Lemma step_keeps_armed_timer thr rel h ev t c :
  sched_inv h ->
  timers h !! t = Some (afterFrameCb, c) ->
  (forall el, ev <> TimeoutFires t el) ->
  timers (step thr rel h ev) !! t = Some (afterFrameCb, c).
Proof.
  intros Hi Ht Hev.
  assert (timeouts h !! t = Some afterFrameCb) as Hts
    by by rewrite timeouts_lookup, Ht.
  pose proof (inv_timeout_lt h Hi _ _ Hts) as Hlt.
  assert (forall d, debounceTimerRef h = Some d -> d <> t) as Hd.
  { intros d Hd ->. by apply (inv_debounce_cb h Hi t). }
  clear Hi Hts.
  destruct ev as [[el|]| |ty| |id el|id]; simpl; try done.
  - destruct h as [d [t0|] [r|] tm fm nt nf]; simpl in *; try done.
    all: rewrite lookup_delete_ne; [done | by apply Hd].
  - unfold handleInput. case_decide;
      destruct h as [d [t0|] [r|] tm fm nt nf]; simpl in *.
    all: rewrite ?lookup_insert_ne by lia.
    all: rewrite ?lookup_delete_ne by (by apply Hd).
    all: done.
  - destruct h as [d [t0|] [r|] tm fm nt nf]; simpl in *; try done.
    all: rewrite lookup_delete_ne; [done | by apply Hd].
  - destruct (decide (id = t)) as [->|Hne]; [by destruct (Hev el)|].
    unfold fire_timeout. destruct (timers h !! id) as [[[] c']|]; [| |done].
    all: destruct h as [d t0 r tm fm nt nf]; simpl in *.
    all: by rewrite lookup_delete_ne.
  - unfold fire_frame. destruct (animationFrames h !! id) as [c'|]; [|done].
    destruct h as [d t0 r tm fm nt nf]; simpl in *.
    by rewrite lookup_insert_ne by lia.
Qed.

(** X8. The zero-delay timer armed by the frame callback is stored in no
    ref and nothing cancels it: once pending it stays pending, with the
    closure it was armed with, through every event other than its own
    firing, the cleanup and the re-run of the effect included; when it
    fires it runs that closure on the readings current then, testing the
    [isMultiline] captured when the frame was requested, whatever the
    state cell holds by then. *)
Theorem X8_armed_timer_not_cancelled thr rel tr t c tr' :
  let h := exec thr rel tr init_hook in
  timers h !! t = Some (afterFrameCb, c) ->
  Forall (fun ev => forall el, ev <> TimeoutFires t el) tr' ->
  let h' := exec thr rel tr' h in
  timers h' !! t = Some (afterFrameCb, c) /\
  timeouts h' !! t = Some afterFrameCb /\
  (forall el,
      measured h' (TimeoutFires t el) = [el] /\
      det (step thr rel h' (TimeoutFires t el)) =
        measure_closure thr rel c el (det h')).
Proof.
  intros h Ht Hall h'. pose proof (run_inv thr rel tr) as Hi. fold h in Hi.
  assert (sched_inv h' /\ timers h' !! t = Some (afterFrameCb, c))
    as [_ Ht'].
  { subst h'. clearbody h. revert h Hi Ht.
    induction Hall as [|ev tr' Hev _ IH]; intros h Hi Ht; [done|].
    simpl. apply IH; [by apply step_inv|].
    by apply step_keeps_armed_timer. }
  split; [done|]. split; [by rewrite timeouts_lookup, Ht'|].
  intros el. simpl. rewrite timeouts_lookup, Ht'. split; [done|].
  by destruct (fire_timeout_pending thr rel h' t el _ _ Ht') as [-> _].
Qed.

Lemma X8_armed_timer_not_cancelled_witness :
  let h := exec 4 12 [Mount (Some (Element "a" 20 20)); PasteEvent;
                      InputEvent (Some "insertText"); FrameFires 0]
             init_hook in
  let rerun := [TimeoutFires 0 (Element "pasted text" 50 20); Cleanup;
                Mount (Some (Element "pasted text" 50 20))] in
  timers h !! 1 = Some (afterFrameCb, false) /\
  det (exec 4 12 rerun h) = Detector (Some 20%Z) true /\
  det (exec 4 12 (rerun ++ [TimeoutFires 1 (Element "ab" 5 20)]) h) =
    measure_closure 4 12 false (Element "ab" 5 20) (Detector (Some 20%Z) true).
Proof.
  intros h rerun. split; [reflexivity|]. split; [reflexivity|].
  destruct (X8_armed_timer_not_cancelled 4 12
              [Mount (Some (Element "a" 20 20)); PasteEvent;
               InputEvent (Some "insertText"); FrameFires 0]
              1 false rerun eq_refl) as (_ & _ & Hfire).
  - repeat (apply List.Forall_cons; [done|]). apply List.Forall_nil.
  - rewrite exec_app. apply (Hfire (Element "ab" 5 20)).
Defined.

(** X9. When the zero-delay timer of an earlier paste fires while the
    frame request of a later paste is pending and on record, its
    [rafRef.current = null] erases that record: the next paste
    notification then cancels nothing, and two frame requests are pending
    together, only the newer one on record. *)
Theorem X9_frame_record_erased thr rel tr t r el :
  let h := exec thr rel tr init_hook in
  timeouts h !! t = Some afterFrameCb ->
  rafRef h = Some r ->
  r ∈ frames h ->
  let h' := exec thr rel [TimeoutFires t el; PasteEvent] h in
  r ∈ frames h' /\ nextFrame h ∈ frames h' /\ r <> nextFrame h /\
  rafRef h' = Some (nextFrame h).
Proof.
  intros h Ht Hr Hin h'. pose proof (run_inv thr rel tr) as Hi. fold h in Hi.
  pose proof (inv_raf_lt h Hi _ Hr) as Hlt.
  rewrite timeouts_lookup in Ht.
  destruct (timers h !! t) as [[cb c]|] eqn:Htm; simplify_eq/=.
  subst h'. simpl. unfold fire_timeout. rewrite Htm.
  destruct h as [d [t0|] [r0|] tm fm nt nf]; views; simplify_eq.
  all: repeat split; try lia; set_unfold; tauto.
Qed.

Lemma X9_frame_record_erased_witness :
  let h := exec 4 12 [Mount (Some (Element "a" 20 20)); PasteEvent;
                      FrameFires 0; PasteEvent] init_hook in
  let h' := exec 4 12 [TimeoutFires 0 (Element "ab" 20 20); PasteEvent] h in
  1 ∈ frames h' /\ 2 ∈ frames h'.
Proof.
  intros h h'.
  destruct (X9_frame_record_erased 4 12
              [Mount (Some (Element "a" 20 20)); PasteEvent;
               FrameFires 0; PasteEvent] 0 1 (Element "ab" 20 20)
              eq_refl eq_refl) as (H1 & H2 & _).
  - vm_compute. reflexivity.
  - split; [exact H1 | exact H2].
Defined.

End Teardown.

(** ** Accounting for measurements *)

Section Accounting.

Lemma timeouts_delete_le (id : nat) (ts : gmap nat callback) :
  size (delete id ts) <= size ts.
Proof. rewrite map_size_delete. destruct (ts !! id); simpl; lia. Qed.

Lemma timeouts_insert_le (id : nat) cb (ts : gmap nat callback) :
  size (<[id:=cb]> ts) <= S (size ts).
Proof. rewrite map_size_insert. destruct (ts !! id); simpl; lia. Qed.

Lemma timeouts_delete_pending (id : nat) cb (ts : gmap nat callback) :
  ts !! id = Some cb -> S (size (delete id ts)) = size ts.
Proof.
  intros Hid. rewrite <- (insert_delete_id ts id cb Hid) at 2.
  by rewrite map_size_insert_None by apply lookup_delete_eq.
Qed.

Lemma frames_remove_le (id : nat) (fs : gset nat) :
  size (fs ∖ {[id]}) <= size fs.
Proof. apply subseteq_size. by intros x [Hx _]%elem_of_difference. Qed.

Lemma frames_add_le (id : nat) (fs : gset nat) :
  size ({[id]} ∪ fs) <= S (size fs).
Proof.
  rewrite size_union_alt, size_singleton.
  pose proof (frames_remove_le id fs). lia.
Qed.

Lemma frames_remove_pending (id : nat) (fs : gset nat) :
  id ∈ fs -> S (size (fs ∖ {[id]})) = size fs.
Proof.
  intros Hin. rewrite size_difference by set_solver.
  rewrite size_singleton.
  assert (size fs <> 0); [|lia].
  intros Hz. apply size_empty_inv in Hz. set_solver.
Qed.

Lemma clearPendingTimers_outstanding h :
  outstanding (clearPendingTimers h) <= outstanding h.
Proof.
  unfold outstanding.
  destruct h as [d [t|] [r|] tm fm nt nf]; views; try lia.
  all: try pose proof (timeouts_delete_le t (fst <$> tm)).
  all: try pose proof (frames_remove_le r (dom fm)).
  all: lia.
Qed.

Lemma debouncedMeasure_outstanding h :
  outstanding (debouncedMeasure h) <= S (outstanding h).
Proof.
  unfold outstanding.
  destruct h as [d [t|] r tm fm nt nf]; views.
  - pose proof (timeouts_insert_le nt measureCb (delete t (fst <$> tm))).
    pose proof (timeouts_delete_le t (fst <$> tm)). lia.
  - pose proof (timeouts_insert_le nt measureCb (fst <$> tm)). lia.
Qed.

Lemma measureAfterFrame_outstanding h :
  outstanding (measureAfterFrame h) <= S (outstanding h).
Proof.
  unfold outstanding.
  destruct h as [d t [r|] tm fm nt nf]; views.
  - pose proof (frames_add_le nf (dom fm ∖ {[r]})).
    pose proof (frames_remove_le r (dom fm)). lia.
  - pose proof (frames_add_le nf (dom fm)). lia.
Qed.

Lemma step_accounting thr rel h ev :
  length (measured h ev) + outstanding (step thr rel h ev)
  <= outstanding h + requests ev.
Proof.
  destruct ev as [[el|]| |ty| |id el|id]; simpl.
  - unfold outstanding, timeouts, frames. simpl. lia.
  - lia.
  - pose proof (clearPendingTimers_outstanding h). unfold cleanup. lia.
  - unfold handleInput. case_decide.
    + pose proof (measureAfterFrame_outstanding (clearPendingTimers h)).
      pose proof (clearPendingTimers_outstanding h). lia.
    + pose proof (debouncedMeasure_outstanding h). lia.
  - pose proof (measureAfterFrame_outstanding (clearPendingTimers h)).
    pose proof (clearPendingTimers_outstanding h). unfold handlePaste. lia.
  - rewrite timeouts_lookup.
    destruct (timers h !! id) as [[cb c]|] eqn:Hid; simpl.
    + destruct (fire_timeout_pending thr rel h id el cb c Hid)
        as (_ & _ & Hts & Hfs & _).
      assert (timeouts h !! id = Some cb) as Hcb
        by by rewrite timeouts_lookup, Hid.
      pose proof (timeouts_delete_pending id cb (timeouts h) Hcb).
      unfold outstanding, frames. rewrite Hts, Hfs. lia.
    + unfold fire_timeout. rewrite Hid. lia.
  - unfold fire_frame.
    destruct (animationFrames h !! id) as [c|] eqn:Hid; [|lia].
    assert (id ∈ frames h) as Hin by by apply elem_of_dom_2 in Hid.
    pose proof (frames_remove_pending id (frames h) Hin).
    pose proof (timeouts_insert_le (nextTimeout h) afterFrameCb (timeouts h)).
    unfold outstanding in *. destruct h as [d t r tm fm nt nf]; views. lia.
Qed.

Lemma exec_accounting thr rel tr h :
  length (trace_measured thr rel tr h) + outstanding (exec thr rel tr h)
  <= outstanding h + sum_list_with requests tr.
Proof.
  revert h. induction tr as [|ev tr IH]; intros h; simpl; [lia|].
  rewrite length_app.
  pose proof (IH (step thr rel h ev)).
  pose proof (step_accounting thr rel h ev). lia.
Qed.

(** X10. Along every run, the [measure] calls made so far together with
    the tasks still pending never outnumber the requests received: the
    effect runs on a bound element, the input events and the paste
    events. Each request is answered by at most one measurement, and
    nothing else makes the hook measure. *)
Theorem X10_measurements_accounted thr rel tr :
  length (trace_measured thr rel tr init_hook)
  + outstanding (exec thr rel tr init_hook)
  <= sum_list_with requests tr.
Proof. apply (exec_accounting thr rel tr init_hook). Qed.

End Accounting.

(** ** Operator icons *)

Module FilterFacts.
Import Filters.

(** X11. [getOperatorIcon] never falls back to the default entry and
    never fails on an operator: for each of the nine operators it returns
    the component configured under the operator's own key, in the
    configured colour, or in the action-active colour when [disabled]. *)
Theorem X11_icon_of_operator op disabled :
  exists config,
    config_at (operator_key op) = Some config /\
    iconMap disabled !! operator_key op =
      Some {| type := Component config;
              color := if disabled then "var(--mui-palette-action-active)"
                       else cssVar config |} /\
    getOperatorIcon op disabled = iconMap disabled !! operator_key op.
Proof.
  destruct op, disabled; vm_compute; eexists; repeat split.
Qed.

(** X12. Two operators get the same icon element exactly when they are
    the same operator or the pair not-equals / not-contains, which share
    component and colour; this holds for enabled and for disabled
    icons. *)
Theorem X12_icons_coincide op op' disabled :
  getOperatorIcon op disabled = getOperatorIcon op' disabled <->
  op = op' \/
  (op = op_not_equals /\ op' = op_not_contains) \/
  (op = op_not_contains /\ op' = op_not_equals).
Proof.
  destruct op, op', disabled; vm_compute; split;
    solve [ intros; discriminate
          | intros; tauto
          | intros [?|[[? ?]|[? ?]]]; discriminate ].
Qed.

(** What [Array.prototype.find] returns is the first match. *)
Lemma find_first {A} (f : A -> bool) (l : list A) x :
  List.find f l = Some x ->
  exists before after,
    l = before ++ x :: after /\ f x = true /\
    Forall (fun y => f y = false) before.
Proof.
  induction l as [|y l IH]; simpl; [done|].
  destruct (f y) eqn:Hy.
  - intros [= ->]. by exists [], l.
  - intros Hfind. destruct (IH Hfind) as (before & after & -> & Hx & Hb).
    exists (y :: before), after. split; [done|]. split; [done|].
    by constructor.
Qed.

Section FilterInputFacts.
Context {number date Rest DefRest : Type}.
Variable zero : number.

Abbreviation ActiveFilter := (@ActiveFilter number date Rest).
Abbreviation FilterDefinition := (@FilterDefinition DefRest).

(** X13. Changing the filter type to a definition that has an operator
    and a non-empty id calls [onFilterTypeChange] (when given) with the
    old id, or the empty string, and the new id, and then [onChange]
    once; the filter passed carries the new id and the definition's
    first operator, keeps [enabled] and the untouched properties, and is
    not an empty filter. What [selectedOperator] then shows depends on
    what [getFilterDefinition] registers under the new id: nothing when
    it registers no definition; otherwise the first operator of the
    definition handed in, labelled by the registered definition (the
    empty label when the registered one lacks the operator); and so the
    first operator under its own label when the registered definition is
    the one handed in. *)
Theorem X13_type_change_selects_first_operator
    hasCb (getFD : string -> option FilterDefinition)
    (filter : ActiveFilter) (fd : FilterDefinition) o os :
  operators fd = o :: os ->
  id fd <> EmptyString ->
  exists updated,
    handleFilterTypeChange zero hasCb filter (Some fd) =
      Ok ((if hasCb
           then [onFilterTypeChange (filterId_or_empty filter) (id fd)]
           else []) ++ [onChange updated]) /\
    filterId updated = Some (id fd) /\
    operator updated = Some (op_value o) /\
    enabled updated = enabled filter /\
    rest updated = rest filter /\
    isEmptyFilter updated = false /\
    selectedOperator getFD updated =
      match getFD (id fd) with
      | None => Ok None
      | Some registered =>
          Ok (Some
                {| op_value := op_value o;
                   op_label :=
                     match List.find
                             (fun op => bool_decide (op_value op = op_value o))
                             (operators registered) with
                     | Some op => op_label op
                     | None => EmptyString
                     end |})
      end /\
    (getFD (id fd) = Some fd -> selectedOperator getFD updated = Ok (Some o)).
Proof.
  intros Hops Hid. unfold handleFilterTypeChange. rewrite Hops. simpl.
  eexists. split; [reflexivity|]. simpl.
  assert (not_ (id fd) = false) as Hne by by apply not__false.
  repeat split; try done.
  - unfold selectedOperator, isEmptyFilter, filterDef. simpl.
    rewrite Hne. by destruct (getFD (id fd)).
  - intros Hget. unfold selectedOperator, isEmptyFilter, filterDef. simpl.
    rewrite Hne, Hget, Hops. simpl.
    rewrite bool_decide_true by done. by destruct o.
Qed.

(** X14. Choosing a filter type by id. When no available definition has
    the chosen id, nothing is called. Otherwise the handler is
    [handleFilterTypeChange] on the first definition with that id (no
    definition before it in the list has the id): if that definition has
    no operator the handler fails before any callback is called; if it
    has one, the last call is [onChange] with a filter whose [filterId]
    is the chosen id and whose operator is that definition's first. *)
Theorem X14_select_by_id hasCb (availableFilters : list FilterDefinition)
    (filter : ActiveFilter) v :
  match onFilterSelectChange zero hasCb availableFilters filter (Some v) with
  | Ok calls =>
      (calls = [] /\ forall fd, fd ∈ availableFilters -> id fd <> v) \/
      (exists before fd after o updated,
          availableFilters = before ++ fd :: after /\
          Forall (fun f => id f <> v) before /\ id fd = v /\
          handleFilterTypeChange zero hasCb filter (Some fd) = Ok calls /\
          head (operators fd) = Some o /\
          last calls = Some (onChange updated) /\
          filterId updated = Some v /\
          operator updated = Some (op_value o))
  | TypeError =>
      exists before fd after,
        availableFilters = before ++ fd :: after /\
        Forall (fun f => id f <> v) before /\ id fd = v /\
        operators fd = []
  end.
Proof.
  unfold onFilterSelectChange.
  destruct (List.find _ availableFilters) as [fd|] eqn:Hfind; simpl.
  - apply find_first in Hfind as (before & after & Hsplit & Hid & Hbefore).
    apply bool_decide_eq_true in Hid.
    assert (Forall (fun f : FilterDefinition => id f <> v) before) as Hb.
    { eapply Forall_impl; [exact Hbefore|].
      intros f Hf. by apply bool_decide_eq_false in Hf. }
    unfold handleFilterTypeChange.
    destruct (operators fd) as [|o os] eqn:Hops; simpl.
    + by exists before, fd, after.
    + right. eexists before, fd, after, o, _. rewrite last_snoc. simpl.
      split; [done|]. split; [done|]. split; [done|].
      split; [by rewrite Hops|]. split; [by rewrite Hops|].
      split; [reflexivity|]. simpl. by rewrite Hid.
  - left. split; [done|]. intros fd Hin Hid.
    apply list_elem_of_In in Hin.
    apply (List.find_none _ _ Hfind) in Hin.
    by apply bool_decide_eq_false in Hin.
Qed.

(** X15. An empty filter (no [filterId], or the empty one) always shows
    the Equals operator, whatever its stored operator and the
    definitions, and its icon is the Equals icon in the action-active
    colour, whatever the enabled flags; clearing the filter type calls
    [onChange] once with such a filter, which keeps [enabled] and the
    untouched properties. *)
Theorem X15_empty_filter_shows_equals
    hasCb (getFD : string -> option FilterDefinition)
    (availableFilters : list FilterDefinition) (filter : ActiveFilter)
    isLinkedEnabled :
  (isEmptyFilter filter = true ->
   selectedOperator getFD filter =
     Ok (Some {| op_value := op_equals; op_label := "Equals" |}) /\
   renderValue filter isLinkedEnabled
     {| op_value := op_equals; op_label := "Equals" |} =
     Some {| type := EqualsIcon;
             color := "var(--mui-palette-action-active)" |}) /\
  (exists cleared,
      onFilterSelectChange zero hasCb availableFilters filter None =
        Ok [onChange cleared] /\
      isEmptyFilter cleared = true /\
      enabled cleared = enabled filter /\
      rest cleared = rest filter).
Proof.
  split.
  - intros Hempty. unfold selectedOperator, renderValue, isOperatorDisabled.
    rewrite Hempty. split; [done|].
    by rewrite orb_true_r.
  - by eexists.
Qed.

End FilterInputFacts.

Lemma X13_type_change_selects_first_operator_witness :
  let fd : @FilterDefinition unit :=
    {| id := "status"; name := "Status";
       operators := [ {| op_value := op_contains; op_label := "Contains" |};
                      {| op_value := op_equals; op_label := "Equals" |} ];
       valueType := "multi-select"; def_rest := () |} in
  let filter : @ActiveFilter Z unit unit :=
    {| filterId := None; operator := None; value := VString EmptyString;
       valueLogicOperator := None; enabled := true; rest := () |} in
  exists updated,
    handleFilterTypeChange 0%Z true filter (Some fd) =
      Ok [onFilterTypeChange EmptyString "status"; onChange updated] /\
    selectedOperator (fun _ => Some fd) updated =
      Ok (Some {| op_value := op_contains; op_label := "Contains" |}).
Proof.
  intros fd filter.
  destruct (X13_type_change_selects_first_operator 0%Z true
              (fun _ => Some fd) filter fd
              {| op_value := op_contains; op_label := "Contains" |}
              [ {| op_value := op_equals; op_label := "Equals" |} ]
              eq_refl ltac:(done))
    as (updated & Hcalls & _ & _ & _ & _ & _ & _ & Hsel).
  exists updated. split; [exact Hcalls | exact (Hsel eq_refl)].
Defined.

Lemma X15_empty_filter_shows_equals_witness :
  let filter : @ActiveFilter Z unit unit :=
    {| filterId := Some EmptyString; operator := Some op_between;
       value := VString EmptyString; valueLogicOperator := None;
       enabled := true; rest := () |} in
  selectedOperator (DefRest := unit) (fun _ => None) filter =
    Ok (Some {| op_value := op_equals; op_label := "Equals" |}).
Proof.
  intros filter.
  destruct (X15_empty_filter_shows_equals 0%Z false (DefRest := unit)
              (fun _ => None) [] filter true) as [Hempty _].
  apply Hempty. reflexivity.
Defined.

End FilterFacts.
